(** * Traffic Manager: the three supervised tasks of [manager.Main]

    A shallow embedding of [cmd/traffic/cmd/manager/manager.go]:

    - the [httpd] task's request multiplexer (gRPC versus plain HTTP),
    - the [intercept-gc] task (a ticker loop calling [mgr.expire]),
    - the [systema-gc] task (reporting deleted intercepts to System A).

    The collaborators that live in other files of the repository
    ([mgr.systema], [mgr.reapDomain], [mgr.reapIntercept], [mgr.expire],
    the gRPC server) are taken as parameters; every call made to them is
    recorded in a trace, and the properties below are properties of those
    traces. *)

From Stdlib Require Import ZArith Bool Ascii String List Lia.
From stdpp Require Import base option list gmap strings.
Import ListNotations.

Local Open Scope string_scope.
Local Open Scope Z_scope.

(** ** Go values used by the code *)

(** A Go [error] value: [None] is [nil], [Some msg] a non-nil error. *)
Definition error := option string.

(** [strings.HasPrefix(s, prefix)]:
    [len(s) >= len(prefix) && s[:len(prefix)] == prefix]. *)
Definition HasPrefix (s prefix : string) : bool :=
  (String.length prefix <=? String.length s)%nat
  && String.eqb (substring 0 (String.length prefix) s) prefix.

Module Http.

(** [url.URL], reduced to the field the handler reads. *)
Record URL := { Path : string }.

(** [http.Header] is [map[string][]string]. *)
Record Request := {
  ProtoMajor : Z;
  Header : gmap string (list string);
  Url : URL
}.

(** [Header.Get(key)]: the first value stored under [key], or the empty
    string.  The only key looked up, [Content-Type], is already in
    canonical MIME form, so canonicalisation is the identity on it. *)
Definition Header_Get (h : gmap string (list string)) (key : string) : string :=
  match h !! key with
  | Some (v :: _) => v
  | _ => ""
  end.

(** An [http.ResponseWriter], seen as the bytes written to the body. *)
Record ResponseWriter := { body : string }.

Definition Handler := ResponseWriter -> Request -> ResponseWriter.

(** [fmt.Fprintf(w, format, arg)] for the one format used,
    ["Hello World from: %s\n"]: the verb [%s] copies a string argument
    unchanged. *)
Definition Fprintf_hello (w : ResponseWriter) (arg : string) : ResponseWriter :=
  {| body := body w ++ "Hello World from: " ++ arg
                    ++ String (ascii_of_nat 10) "" |}.

(** The plain handler of lines 42-44. *)
Definition httpHandler : Handler :=
  fun w r => Fprintf_hello w (Path (Url r)).

(** The two handlers the multiplexer closure captures. *)
Inductive target := GrpcHandler | HttpHandler.

(** The test of line 49. *)
Definition is_grpc (r : Request) : bool :=
  (ProtoMajor r =? 2)
  && HasPrefix (Header_Get (Header r) "Content-Type") "application/grpc".

(** Which branch of the [if] of lines 49-53 a request takes. *)
Definition dispatch (r : Request) : target :=
  if is_grpc r then GrpcHandler else HttpHandler.

Section Mux.
(** [grpc.NewServer()], whose [ServeHTTP] is outside this file. *)
Variable grpcHandler : Handler.

Definition ServeHTTP (t : target) : Handler :=
  match t with
  | GrpcHandler => grpcHandler
  | HttpHandler => httpHandler
  end.

(** The handler given to [h2c.NewHandler] (lines 48-54). *)
Definition mux : Handler :=
  fun w r => ServeHTTP (dispatch r) w r.
End Mux.

(** [contains s sub]: [sub] occurs in [s]. *)
Definition contains (s sub : string) : Prop :=
  exists pre post, s = pre ++ sub ++ post.

End Http.

(** ** The [systema-gc] task (lines 82-119) *)

Module SystemaGc.

Local Open Scope list_scope.

(** [rpc.InterceptInfo], reduced to the fields the task reads. *)
Record InterceptInfo := {
  Id : string;
  ApiKey : string;
  PreviewDomain : string
}.

(** One entry of [snapshot.Updates]. *)
Record Update := {
  Delete : bool;
  Value : InterceptInfo
}.

(** One element of the channel returned by [mgr.state.WatchIntercepts]. *)
Record Snapshot := { Updates : list Update }.

(** The two places where [mgr.systema.Done] is called: line 107 releases
    the connection obtained at line 89, line 112 releases the reference
    held for the proxy connection. *)
Inductive release_site := ManagementConnection | ProxyConnection.

(** What the task does, as seen from outside: calls to the collaborators
    together with what they returned, and log lines. *)
Inductive event {Conn : Type} :=
| EvGet (sa : Conn) (err : error)
| EvReapDomain (sa : Conn) (update : Update) (err : error)
| EvReapIntercept (sa : Conn) (update : Update) (err : error)
| EvDone (site : release_site) (err : error)
| Errorln (msg : string) (err : error)
| Debugf (format : string) (arg : string).
Arguments event : clear implicits.

(** The collaborators, as state transformers of a world [W] that stands
    for everything outside the task (the connection pool with its
    reference count, System A itself, the other goroutines). *)
Class Collaborators (W Conn : Type) := {
  systema_Get : W -> (Conn * error) * W;
  systema_Done : W -> error * W;
  reapDomain : Conn -> Update -> W -> error * W;
  reapIntercept : Conn -> Update -> W -> error * W
}.

(** Computations of the task: they transform the world and emit events,
    oldest first. *)
Definition M (W Conn A : Type) : Type := W -> A * W * list (event Conn).

Section Monad.
Context {W Conn : Type}.

Definition ret {A} (a : A) : M W Conn A := fun w => (a, w, []).

Definition bind {A B} (m : M W Conn A) (k : A -> M W Conn B) : M W Conn B :=
  fun w =>
    let '(a, w1, tr1) := m w in
    let '(b, w2, tr2) := k a w1 in
    (b, w2, tr1 ++ tr2).

(** Emit one event. *)
Definition emit (e : event Conn) : M W Conn unit := fun w => (tt, w, [e]).

(** Call a collaborator and record the call with its result. *)
Definition call {A} (f : W -> A * W) (ev : A -> event Conn) : M W Conn A :=
  fun w => let '(a, w1) := f w in (a, w1, [ev a]).

(** [for _, x := range l { body x }]. *)
Fixpoint for_range {A} (l : list A) (body : A -> M W Conn unit) : M W Conn unit :=
  match l with
  | [] => ret tt
  | x :: l' => bind (body x) (fun _ => for_range l' body)
  end.
End Monad.

Notation "x <- m ;; k" := (bind m (fun x => k))
  (at level 100, m at next level, right associativity, only parsing).
Notation "m ;;; k" := (bind m (fun _ => k))
  (at level 100, right associativity, only parsing).

Section Task.
Context {W Conn : Type} `{Collaborators W Conn}.

(** The filter of line 88. *)
Definition qualifies (update : Update) : bool :=
  Delete update && negb (String.eqb (ApiKey (Value update)) "").

(** [if err != nil { dlog.Errorln(ctx, msg, err) }]. *)
Definition log_if_err (msg : string) (err : error) : M W Conn unit :=
  match err with
  | Some _ => emit (Errorln msg err)
  | None => ret tt
  end.

(** Lines 92-109: the [else] branch, run with the acquired [sa]. *)
Definition report_removal (sa : Conn) (update : Update) : M W Conn unit :=
  (if negb (String.eqb (PreviewDomain (Value update)) "") then
     err <- call (reapDomain sa update) (EvReapDomain sa update) ;;
     log_if_err "systema: remove domain:" err
   else ret tt) ;;;
  emit (Debugf "systema: remove intercept: %q" (Id (Value update))) ;;;
  err <- call (reapIntercept sa update) (EvReapIntercept sa update) ;;
  log_if_err "systema: remove intercept:" err ;;;
  err <- call systema_Done (EvDone ManagementConnection) ;;
  log_if_err "systema: release management connection:" err.

(** Lines 88-115: the body of the inner loop. *)
Definition process_update (update : Update) : M W Conn unit :=
  if qualifies update then
    r <- call systema_Get (fun r => EvGet (fst r) (snd r)) ;;
    (match snd r with
     | Some _ => emit (Errorln "systema: acquire connection:" (snd r))
     | None => report_removal (fst r) update
     end) ;;;
    err <- call systema_Done (EvDone ProxyConnection) ;;
    log_if_err "systema: release proxy connection:" err
  else ret tt.

(** What the [mgr.systema.Get()] of line 89 returns when the update is
    handled in world [w]: the connection and the error. *)
Definition acquired_connection (w : W) : Conn := fst (fst (systema_Get w)).
Definition acquire_error (w : W) : error := snd (fst (systema_Get w)).

(** Lines 83-118.  [stream] is what the channel delivers before it is
    closed; [range] over a channel ends when the channel is closed. *)
Definition systema_gc (stream : list Snapshot) : M W Conn error :=
  for_range stream (fun snapshot =>
    for_range (Updates snapshot) process_update) ;;;
  ret None.
End Task.

(** *** Reading a trace *)

Section Traces.
Context {Conn : Type}.

Definition is_acquire (e : event Conn) : bool :=
  match e with EvGet _ _ => true | _ => false end.

Definition is_external_call (e : event Conn) : bool :=
  match e with
  | EvReapDomain _ _ _ | EvReapIntercept _ _ _ => true
  | _ => false
  end.

Definition is_release (e : event Conn) : bool :=
  match e with EvDone _ _ => true | _ => false end.



Definition count (p : event Conn -> bool) (tr : list (event Conn)) : nat :=
  length (List.filter p tr).

(** The log line, if any, that follows a call returning [err]. *)
Definition logged (msg : string) (err : error) : list (event Conn) :=
  match err with
  | Some _ => [Errorln msg err]
  | None => []
  end.

(** The events of lines 93-98, when [reapDomain] returns [rd]. *)
Definition domain_trace (sa : Conn) (update : Update) (rd : error)
  : list (event Conn) :=
  if negb (String.eqb (PreviewDomain (Value update)) "") then
    EvReapDomain sa update rd :: logged "systema: remove domain:" rd
  else [].

(** The events of lines 99-109, when [reapIntercept] returns [ri] and
    the release of the management connection [e1]. *)
Definition report_trace (sa : Conn) (update : Update) (ri e1 : error)
  : list (event Conn) :=
  Debugf "systema: remove intercept: %q" (Id (Value update))
    :: EvReapIntercept sa update ri
    :: logged "systema: remove intercept:" ri
    ++ EvDone ManagementConnection e1
    :: logged "systema: release management connection:" e1.

(** The events of lines 111-114, when the release returns [e2]. *)
Definition proxy_release_trace (e2 : error) : list (event Conn) :=
  EvDone ProxyConnection e2 :: logged "systema: release proxy connection:" e2.
End Traces.

(** The updates of a stream, in the order in which they are delivered. *)
Definition all_updates (stream : list Snapshot) : list Update :=
  concat (map Updates stream).

Section Processed.
Context {W Conn : Type} `{Collaborators W Conn}.

(** [processed us w tr w']: starting in world [w], the updates [us]
    were each handled by [process_update], one after the other in the
    order of the list, which emitted [tr] and left the world [w']. *)
Inductive processed : list Update -> W -> list (event Conn) -> W -> Prop :=
| processed_nil w : processed [] w [] w
| processed_cons u us w tr w' :
    processed us (snd (fst (process_update u w))) tr w' ->
    processed (u :: us) w (snd (process_update u w) ++ tr) w'.
End Processed.

(** The events emitted by a computation started in world [w]. *)
Definition events {W Conn A} (m : M W Conn A) (w : W) : list (event Conn) :=
  snd (m w).

Definition result {W Conn A} (m : M W Conn A) (w : W) : A := fst (fst (m w)).

Definition world_after {W Conn A} (m : M W Conn A) (w : W) : W := snd (fst (m w)).

End SystemaGc.

(** ** The [intercept-gc] task (lines 63-76) *)

Module InterceptGc.

Local Open Scope list_scope.

(** [time.Second], a [time.Duration] counted in nanoseconds. *)
Definition Second : Z := 1000000000.

(** Which case of the [select] of lines 69-74 fires. *)
Inductive select_case := TickerC | CtxDone.

Inductive event :=
| NewTicker (d : Z)
| Expire
| TickerStop.

Section Task.
Context {W : Type}.
(** [mgr.expire()]: it has no result, it only acts on the state. *)
Variable expire : W -> W.

(** The [for { select { ... } }] of lines 68-75, driven by the cases
    that fire, oldest first.  [None] as a result means the loop is
    still blocked in [select]; [Some err] that the function returned
    [err]. *)
Fixpoint loop (fired : list select_case) (w : W)
  : option error * W * list event :=
  match fired with
  | [] => (None, w, [])
  | TickerC :: fired' =>
      let '(r, w', tr) := loop fired' (expire w) in
      (r, w', Expire :: tr)
  | CtxDone :: _ => (Some None, w, [])
  end.

(** The whole task: the ticker of line 65, the loop, and the deferred
    [ticker.Stop()] of line 66, which runs when the function returns. *)
Definition intercept_gc (fired : list select_case) (w : W)
  : option error * W * list event :=
  let '(r, w', tr) := loop fired w in
  (r, w',
   NewTicker (5 * Second) :: tr
     ++ match r with Some _ => [TickerStop] | None => [] end).
End Task.

End InterceptGc.

(** ** A scripted System A, to run the task on concrete inputs *)

Module Fixture.

Import SystemaGc.

(** The pool's reference count, and which calls are scripted to fail. *)
Record world := {
  refs : nat;
  dial_fails : bool;
  domain_fails : bool;
  intercept_fails : bool
}.

Definition set_refs (n : nat) (w : world) : world :=
  {| refs := n; dial_fails := dial_fails w;
     domain_fails := domain_fails w; intercept_fails := intercept_fails w |}.

Definition fail_if (b : bool) (msg : string) : error :=
  if b then Some msg else None.

#[export] Instance scripted : Collaborators world nat := {|
  systema_Get := fun w =>
    if dial_fails w then ((0%nat, Some "dial: connection refused"), w)
    else ((1%nat, None), set_refs (S (refs w)) w);
  systema_Done := fun w =>
    match refs w with
    | O => (Some "systema: no connection to release", w)
    | S n => (None, set_refs n w)
    end;
  reapDomain := fun _ _ w => (fail_if (domain_fails w) "remove domain: unavailable", w);
  reapIntercept := fun _ _ w => (fail_if (intercept_fails w) "remove intercept: unavailable", w)
|}.

(** One proxy reference is held, as after the creation of an intercept
    with a preview domain. *)
Definition healthy : world :=
  {| refs := 1; dial_fails := false; domain_fails := false; intercept_fails := false |}.

Definition unreachable : world :=
  {| refs := 1; dial_fails := true; domain_fails := false; intercept_fails := false |}.

Definition flaky : world :=
  {| refs := 1; dial_fails := false; domain_fails := true; intercept_fails := true |}.

(** The updates of the scenarios of the specification. *)
Definition i1 : Update :=
  {| Delete := true;
     Value := {| Id := "i1"; ApiKey := "k1"; PreviewDomain := "d1.example" |} |}.

Definition i2 : Update :=
  {| Delete := true;
     Value := {| Id := "i2"; ApiKey := ""; PreviewDomain := "" |} |}.

Definition i3 : Update :=
  {| Delete := true;
     Value := {| Id := "i3"; ApiKey := "k3"; PreviewDomain := "" |} |}.

Definition i4 : Update :=
  {| Delete := false;
     Value := {| Id := "i4"; ApiKey := "k4"; PreviewDomain := "d4.example" |} |}.

(** Requests of the scenarios of the specification. *)
Definition request (major : Z) (content_type : list string) (path : string)
  : Http.Request :=
  {| Http.ProtoMajor := major;
     Http.Header := match content_type with
                    | [] => ∅
                    | _ => {[ "Content-Type" := content_type ]}
                    end;
     Http.Url := {| Http.Path := path |} |}.

End Fixture.

(** ** Reading whole traces of the [systema-gc] task *)

Module SystemaGcProtocol.

Import SystemaGc.
Local Open Scope list_scope.

#[export] Instance InterceptInfo_eq_dec : EqDecision InterceptInfo.
Proof. solve_decision. Defined.

#[export] Instance Update_eq_dec : EqDecision Update.
Proof. solve_decision. Defined.

(** A snapshot reduced to the updates that pass the filter of line 88. *)
Definition qualifying_only (snapshot : Snapshot) : Snapshot :=
  {| Updates := List.filter qualifies (Updates snapshot) |}.

Section Reading.
Context {Conn : Type}.




Definition is_error_line (e : event Conn) : bool :=
  match e with Errorln _ _ => true | _ => false end.

(** The [dlog.Errorln] that the code places after each call, for a call
    that returned a non-nil error (lines 90, 96, 103, 108 and 113). *)
Definition error_line_of (e : event Conn) : list (event Conn) :=
  match e with
  | EvGet _ (Some m) => [Errorln "systema: acquire connection:" (Some m)]
  | EvReapDomain _ _ (Some m) => [Errorln "systema: remove domain:" (Some m)]
  | EvReapIntercept _ _ (Some m) => [Errorln "systema: remove intercept:" (Some m)]
  | EvDone ManagementConnection (Some m) =>
      [Errorln "systema: release management connection:" (Some m)]
  | EvDone ProxyConnection (Some m) =>
      [Errorln "systema: release proxy connection:" (Some m)]
  | _ => []
  end.

(** An external call is justified when its update passes the filter of
    line 88 and, for [reapDomain], the test of line 93. *)
Definition justified (e : event Conn) : bool :=
  match e with
  | EvReapDomain _ u _ =>
      qualifies u && negb (String.eqb (PreviewDomain (Value u)) "")
  | EvReapIntercept _ u _ => qualifies u
  | _ => true
  end.

(** Where the task stands with respect to the connection pool. *)
Inductive phase :=
| Idle
| Holding (sa : Conn)
| DomainRemoved (sa : Conn) (update : Update)
| Reported
| Releasing.

Context `{EqDecision Conn}.

(** The calls allowed in each phase.  Log lines are allowed anywhere. *)
Definition step (p : phase) (e : event Conn) : option phase :=
  match e, p with
  | Errorln _ _, _ | Debugf _ _, _ => Some p
  | EvGet sa None, Idle => Some (Holding sa)
  | EvGet _ (Some _), Idle => Some Releasing
  | EvReapDomain sa' u _, Holding sa =>
      if decide (sa' = sa) then Some (DomainRemoved sa u) else None
  | EvReapIntercept sa' _ _, Holding sa =>
      if decide (sa' = sa) then Some Reported else None
  | EvReapIntercept sa' u' _, DomainRemoved sa u =>
      if decide (sa' = sa /\ u' = u) then Some Reported else None
  | EvDone ManagementConnection _, Reported => Some Releasing
  | EvDone ProxyConnection _, Releasing => Some Idle
  | _, _ => None
  end.

(** Follow a trace from phase [p]; [None] when a call is out of place. *)
Fixpoint run (p : phase) (tr : list (event Conn)) : option phase :=
  match tr with
  | [] => Some p
  | e :: tr' =>
      match step p e with
      | Some p' => run p' tr'
      | None => None
      end
  end.
End Reading.

Arguments phase : clear implicits.

End SystemaGcProtocol.

(** ** Reading requests and schedules *)

Module Reading.

Local Open Scope list_scope.

(** [r.Header[key] = values]. *)
Definition set_header (key : string) (values : list string) (r : Http.Request)
  : Http.Request :=
  {| Http.ProtoMajor := Http.ProtoMajor r;
     Http.Header := <[key := values]> (Http.Header r);
     Http.Url := Http.Url r |}.

Definition is_tick (c : InterceptGc.select_case) : bool :=
  match c with InterceptGc.TickerC => true | InterceptGc.CtxDone => false end.

Definition is_done (c : InterceptGc.select_case) : bool :=
  match c with InterceptGc.CtxDone => true | InterceptGc.TickerC => false end.

Definition is_expire (e : InterceptGc.event) : bool :=
  match e with InterceptGc.Expire => true | _ => false end.

Definition is_stop (e : InterceptGc.event) : bool :=
  match e with InterceptGc.TickerStop => true | _ => false end.

End Reading.

(** * Properties *)

(** ** Scenarios of the specification, run on the model *)

Module Scenarios.
Import SystemaGc Fixture.
Local Open Scope list_scope.

Example scenario_i1 :
  events (systema_gc [{| Updates := [i1] |}]) healthy
  = [ EvGet 1%nat None;
      EvReapDomain 1%nat i1 None;
      Debugf "systema: remove intercept: %q" "i1";
      EvReapIntercept 1%nat i1 None;
      EvDone ManagementConnection None;
      EvDone ProxyConnection None ].
Proof. reflexivity. Qed.

Example scenario_i2 :
  events (systema_gc [{| Updates := [i2] |}]) healthy = [].
Proof. reflexivity. Qed.

Example scenario_unreachable :
  events (systema_gc [{| Updates := [i1] |}]) unreachable
  = [ EvGet 0%nat (Some "dial: connection refused");
      Errorln "systema: acquire connection:" (Some "dial: connection refused");
      EvDone ProxyConnection None ].
Proof. reflexivity. Qed.

Example scenario_flaky :
  events (systema_gc [{| Updates := [i1; i4; i3] |}]) flaky
  = [ EvGet 1%nat None;
      EvReapDomain 1%nat i1 (Some "remove domain: unavailable");
      Errorln "systema: remove domain:" (Some "remove domain: unavailable");
      Debugf "systema: remove intercept: %q" "i1";
      EvReapIntercept 1%nat i1 (Some "remove intercept: unavailable");
      Errorln "systema: remove intercept:" (Some "remove intercept: unavailable");
      EvDone ManagementConnection None;
      EvDone ProxyConnection None;
      EvGet 1%nat None;
      Debugf "systema: remove intercept: %q" "i3";
      EvReapIntercept 1%nat i3 (Some "remove intercept: unavailable");
      Errorln "systema: remove intercept:" (Some "remove intercept: unavailable");
      EvDone ManagementConnection None;
      EvDone ProxyConnection (Some "systema: no connection to release");
      Errorln "systema: release proxy connection:"
              (Some "systema: no connection to release") ].
Proof. reflexivity. Qed.

Example scenario_grpc :
  Http.dispatch (request 2 ["application/grpc"] "/rpc") = Http.GrpcHandler.
Proof. reflexivity. Qed.

Example scenario_http1 :
  forall g w,
    Http.body (Http.mux g w (request 1 ["application/grpc"] "/healthz"))
    = (Http.body w ++ "Hello World from: /healthz" ++ String (ascii_of_nat 10) "")%string.
Proof. reflexivity. Qed.

Example scenario_gc :
  InterceptGc.intercept_gc S [InterceptGc.TickerC; InterceptGc.TickerC; InterceptGc.CtxDone] O
  = (Some None, 2%nat,
     [InterceptGc.NewTicker 5000000000; InterceptGc.Expire; InterceptGc.Expire;
      InterceptGc.TickerStop]).
Proof. reflexivity. Qed.
End Scenarios.

(** ** Strings *)

Lemma append_assoc (a b c : string) :
  ((a ++ b) ++ c)%string = (a ++ (b ++ c))%string.
Proof.
  induction a as [|x a IH]; [reflexivity|].
  change (String x ((a ++ b) ++ c) = String x (a ++ (b ++ c)))%string.
  now f_equal.
Qed.

Lemma HasPrefix_app (prefix rest : string) :
  HasPrefix (prefix ++ rest) prefix = true.
Proof.
  unfold HasPrefix.
  induction prefix as [|c prefix IH]; simpl.
  - destruct rest; reflexivity.
  - rewrite Ascii.eqb_refl. exact IH.
Qed.

Lemma HasPrefix_inv (prefix : string) :
  forall s, HasPrefix s prefix = true -> exists rest, s = (prefix ++ rest)%string.
Proof.
  unfold HasPrefix.
  induction prefix as [|c prefix IH]; intros s Hs.
  - exists s. reflexivity.
  - destruct s as [|d s]; simpl in Hs; [discriminate|].
    apply andb_prop in Hs as [Hlen Heq].
    destruct (Ascii.eqb_spec d c) as [->|]; [|discriminate].
    destruct (IH s) as [rest ->].
    + rewrite Hlen, Heq. reflexivity.
    + exists rest. reflexivity.
Qed.

(** [strings.HasPrefix] is the prefix test: it accepts exactly the strings
    that continue [prefix]. *)
Lemma HasPrefix_spec (s prefix : string) :
  HasPrefix s prefix = true <-> exists rest, s = (prefix ++ rest)%string.
Proof.
  split.
  - apply HasPrefix_inv.
  - intros [rest ->]. apply HasPrefix_app.
Qed.

(** ** The multiplexer *)

Module HttpFacts.
Import Http.

Lemma dispatch_grpc_iff (r : Request) :
  dispatch r = GrpcHandler <-> is_grpc r = true.
Proof.
  unfold dispatch. destruct (is_grpc r); split; congruence.
Qed.

Lemma is_grpc_iff (r : Request) :
  is_grpc r = true <->
  ProtoMajor r = 2
  /\ HasPrefix (Header_Get (Header r) "Content-Type") "application/grpc" = true.
Proof.
  unfold is_grpc. rewrite andb_true_iff, Z.eqb_eq. reflexivity.
Qed.

(** The test of line 49 read on the header map itself: HTTP/2, and a
    first [Content-Type] value that continues ["application/grpc"]. *)
Lemma is_grpc_header_iff (r : Request) :
  is_grpc r = true <->
  ProtoMajor r = 2
  /\ exists v vs rest,
       Header r !! "Content-Type" = Some (v :: vs)
       /\ v = ("application/grpc" ++ rest)%string.
Proof.
  rewrite is_grpc_iff. unfold Header_Get.
  split; intros [Hmajor Hct]; (split; [exact Hmajor|]).
  - destruct (Header r !! "Content-Type") as [[|v vs]|];
      [discriminate Hct | | discriminate Hct].
    apply HasPrefix_spec in Hct as [rest ->].
    exists ("application/grpc" ++ rest)%string, vs, rest. split; reflexivity.
  - destruct Hct as (v & vs & rest & -> & ->). apply HasPrefix_app.
Qed.

Lemma httpHandler_echoes_path (w : ResponseWriter) (r : Request) :
  contains (body (httpHandler w r)) (Path (Url r)).
Proof.
  exists (body w ++ "Hello World from: ")%string, (String (ascii_of_nat 10) "").
  unfold httpHandler, Fprintf_hello. simpl.
  now rewrite append_assoc.
Qed.
End HttpFacts.

Module HttpProperties.
Import Http HttpFacts.

(** C7: a request goes to the gRPC handler exactly when its protocol
    major version is 2 and the Content-Type it declares, the first value
    stored under that key of its header, is ["application/grpc"] followed
    by anything; every other request goes to the plain handler, and the
    body written by the plain handler contains the requested path. *)
Theorem mux_dispatch (grpcHandler : Handler) (w : ResponseWriter) (r : Request) :
  (dispatch r = GrpcHandler <->
     ProtoMajor r = 2
     /\ exists v vs rest,
          Header r !! "Content-Type" = Some (v :: vs)
          /\ v = ("application/grpc" ++ rest)%string)
  /\ (dispatch r = GrpcHandler -> mux grpcHandler w r = grpcHandler w r)
  /\ (dispatch r <> GrpcHandler ->
        dispatch r = HttpHandler
        /\ mux grpcHandler w r = httpHandler w r
        /\ contains (body (mux grpcHandler w r)) (Path (Url r))).
Proof.
  split; [|split].
  - rewrite dispatch_grpc_iff. apply is_grpc_header_iff.
  - intros Hd. unfold mux. rewrite Hd. reflexivity.
  - intros Hd.
    assert (Hh : dispatch r = HttpHandler)
      by (destruct (dispatch r); congruence).
    unfold mux. rewrite Hh. simpl.
    repeat split. apply httpHandler_echoes_path.
Qed.

Lemma mux_dispatch_witness :
  mux (fun _ _ => {| body := "served by gRPC" |}) {| body := "" |}
      (Fixture.request 2 ["application/grpc"] "/manager.Manager/Version")
  = {| body := "served by gRPC" |}
  /\ contains
       (body (mux (fun _ _ => {| body := "served by gRPC" |}) {| body := "" |}
                  (Fixture.request 1 ["application/grpc"] "/healthz")))
       "/healthz"
  /\ contains
       (body (mux (fun _ _ => {| body := "served by gRPC" |}) {| body := "" |}
                  (Fixture.request 2 [] "/healthz")))
       "/healthz".
Proof.
  split; [|split].
  - destruct (mux_dispatch (fun _ _ => {| body := "served by gRPC" |}) {| body := "" |}
                (Fixture.request 2 ["application/grpc"] "/manager.Manager/Version"))
      as (Hiff & Hgrpc & _).
    apply Hgrpc, Hiff. split; [reflexivity|].
    exists "application/grpc", [], "". split; reflexivity.
  - destruct (mux_dispatch (fun _ _ => {| body := "served by gRPC" |}) {| body := "" |}
                (Fixture.request 1 ["application/grpc"] "/healthz"))
      as (_ & _ & Hhttp).
    apply Hhttp. vm_compute. discriminate.
  - destruct (mux_dispatch (fun _ _ => {| body := "served by gRPC" |}) {| body := "" |}
                (Fixture.request 2 [] "/healthz"))
      as (_ & _ & Hhttp).
    apply Hhttp. vm_compute. discriminate.
Defined.

(** C8: the Content-Type test is a prefix test.  Over HTTP/2, a request
    whose Content-Type is ["application/grpc"] followed by anything at
    all is served by the gRPC handler. *)
Theorem grpc_content_type_is_prefix_match
    (grpcHandler : Handler) (w : ResponseWriter) (r : Request) (suffix : string) :
  ProtoMajor r = 2 ->
  Header_Get (Header r) "Content-Type" = ("application/grpc" ++ suffix)%string ->
  dispatch r = GrpcHandler /\ mux grpcHandler w r = grpcHandler w r.
Proof.
  intros Hmajor Hct.
  assert (Hd : dispatch r = GrpcHandler).
  { apply dispatch_grpc_iff, is_grpc_iff. split; [exact Hmajor|].
    rewrite Hct. apply HasPrefix_app. }
  split; [exact Hd|]. unfold mux. rewrite Hd. reflexivity.
Qed.

Lemma grpc_content_type_is_prefix_match_witness :
  dispatch (Fixture.request 2 ["application/grpc+proto"] "/manager.Manager/Version")
  = GrpcHandler.
Proof.
  apply (grpc_content_type_is_prefix_match httpHandler {| body := "" |}
           (Fixture.request 2 ["application/grpc+proto"] "/manager.Manager/Version")
           "+proto"); reflexivity.
Defined.
End HttpProperties.

(** ** The [systema-gc] task *)

Module SystemaGcFacts.
Import SystemaGc.
Local Open Scope list_scope.
Local Open Scope nat_scope.

(** *** Running computations *)

Section Run.
Context {W Conn : Type}.
Implicit Types w : W.

Lemma run_bind {A B} (m : M W Conn A) (k : A -> M W Conn B) w :
  bind m k w
  = (result (k (result m w)) (world_after m w),
     world_after (k (result m w)) (world_after m w),
     events m w ++ events (k (result m w)) (world_after m w)).
Proof.
  unfold bind, result, world_after, events.
  destruct (m w) as [[a w1] tr1]; simpl.
  destruct (k a w1) as [[b w2] tr2]; reflexivity.
Qed.

Lemma events_bind {A B} (m : M W Conn A) (k : A -> M W Conn B) w :
  events (bind m k) w
  = events m w ++ events (k (result m w)) (world_after m w).
Proof. unfold events at 1. rewrite run_bind. reflexivity. Qed.

Lemma world_after_bind {A B} (m : M W Conn A) (k : A -> M W Conn B) w :
  world_after (bind m k) w = world_after (k (result m w)) (world_after m w).
Proof. unfold world_after at 1. rewrite run_bind. reflexivity. Qed.

Lemma result_bind {A B} (m : M W Conn A) (k : A -> M W Conn B) w :
  result (bind m k) w = result (k (result m w)) (world_after m w).
Proof. unfold result at 1. rewrite run_bind. reflexivity. Qed.

Lemma events_call {A} (f : W -> A * W) (ev : A -> event Conn) w :
  events (call f ev) w = [ev (fst (f w))].
Proof. unfold events, call. destruct (f w); reflexivity. Qed.

Lemma result_call {A} (f : W -> A * W) (ev : A -> event Conn) w :
  result (call f ev) w = fst (f w).
Proof. unfold result, call. destruct (f w); reflexivity. Qed.

Lemma events_log_if_err msg err w :
  events (log_if_err (W:=W) (Conn:=Conn) msg err) w = logged msg err.
Proof. destruct err; reflexivity. Qed.

End Run.

(** *** Counting events *)

Section Counting.
Context {Conn : Type}.
Implicit Types (p : event Conn -> bool) (tr : list (event Conn)).

Lemma count_app p tr1 tr2 : count p (tr1 ++ tr2) = count p tr1 + count p tr2.
Proof. unfold count. rewrite List.filter_app, List.length_app. reflexivity. Qed.

Lemma count_cons p e tr :
  count p (e :: tr) = (if p e then 1 else 0) + count p tr.
Proof. unfold count. simpl. destruct (p e); reflexivity. Qed.

Lemma count_nil p : count p [] = 0.
Proof. reflexivity. Qed.

(** Log lines are not calls. *)
Lemma count_logged p msg err :
  (forall m e, p (Errorln m e) = false) -> count p (logged msg err) = 0.
Proof.
  intros Hp. destruct err; [|reflexivity].
  unfold logged. rewrite count_cons, Hp. reflexivity.
Qed.
End Counting.

Create Rewrite HintDb count.
#[export] Hint Rewrite @count_app @count_cons @count_nil : count.

(** *** The events of one update *)

Section OneUpdate.
Context {W Conn : Type} `{Collaborators W Conn}.
Implicit Types (w : W) (update : Update) (sa : Conn).

(** An update that fails the filter of line 88 is passed over. *)
Lemma process_update_skipped update w :
  qualifies update = false -> process_update update w = (tt, w, []).
Proof. intros Hq. unfold process_update. rewrite Hq. reflexivity. Qed.

(** Lines 93-109 emit the domain events, then the report events. *)
Lemma report_removal_events sa update w :
  exists rd ri e1,
    events (report_removal sa update) w
    = domain_trace sa update rd ++ report_trace sa update ri e1.
Proof.
  unfold report_removal, domain_trace, report_trace.
  rewrite !events_bind.
  destruct (negb (String.eqb (PreviewDomain (Value update)) "")).
  - rewrite !events_bind, !events_call, !events_log_if_err.
    rewrite ?result_bind, ?result_call.
    eexists _, _, _. simpl. reflexivity.
  - rewrite !events_call, !events_log_if_err.
    rewrite ?result_bind, ?result_call.
    eexists None, _, _. simpl. reflexivity.
Qed.

(** When the acquire fails: the failed call, its log line, and the
    release of the proxy reference. *)
Lemma process_update_acquire_failed update w :
  qualifies update = true ->
  acquire_error w <> None ->
  exists e2,
    events (process_update update) w
    = EvGet (acquired_connection w) (acquire_error w)
        :: Errorln "systema: acquire connection:" (acquire_error w)
        :: proxy_release_trace e2.
Proof.
  intros Hq Herr. unfold process_update. rewrite Hq.
  rewrite !events_bind, !events_call, !events_log_if_err.
  rewrite ?result_bind, ?result_call.
  fold (acquire_error w). fold (acquired_connection w).
  destruct (acquire_error w) as [msg|]; [|congruence].
  eexists. simpl. reflexivity.
Qed.

(** When the acquire succeeds: the call, the events of lines 93-109,
    and the release of the proxy reference. *)
Lemma process_update_acquired update w :
  qualifies update = true ->
  acquire_error w = None ->
  exists rd ri e1 e2,
    events (process_update update) w
    = EvGet (acquired_connection w) None
        :: domain_trace (acquired_connection w) update rd
        ++ report_trace (acquired_connection w) update ri e1
        ++ proxy_release_trace e2.
Proof.
  intros Hq Herr. unfold process_update. rewrite Hq.
  rewrite !events_bind, !events_call, !events_log_if_err.
  rewrite ?result_bind, ?result_call.
  fold (acquire_error w). fold (acquired_connection w).
  rewrite Herr.
  destruct (report_removal_events (acquired_connection w) update
              (world_after (call systema_Get (fun r => EvGet (fst r) (snd r))) w))
    as (rd & ri & e1 & ->).
  eexists rd, ri, e1, _. simpl. rewrite <- List.app_assoc. reflexivity.
Qed.
End OneUpdate.

(** *** Counting in the events of one update *)

Section CountingShapes.
Context {Conn : Type}.
Implicit Types (p : event Conn -> bool) (sa : Conn) (update : Update).

(** Counting events other than [reapDomain] calls in lines 93-98. *)
Lemma count_domain_trace_other p sa update rd :
  (forall c u e, p (EvReapDomain c u e) = false) ->
  (forall m e, p (Errorln m e) = false) ->
  count p (domain_trace sa update rd) = 0.
Proof.
  intros Hp Hl. unfold domain_trace.
  destruct (negb _); [|reflexivity].
  rewrite count_cons, Hp, count_logged by exact Hl. reflexivity.
Qed.

(** Counting [reapDomain] calls in lines 93-98. *)
Lemma count_domain_trace_call p sa update rd :
  (forall c u e, p (EvReapDomain c u e) = true) ->
  (forall m e, p (Errorln m e) = false) ->
  count p (domain_trace sa update rd)
  = if String.eqb (PreviewDomain (Value update)) "" then 0 else 1.
Proof.
  intros Hp Hl. unfold domain_trace.
  destruct (String.eqb _ _); [reflexivity|]. simpl negb. cbv iota.
  rewrite count_cons, Hp, count_logged by exact Hl. reflexivity.
Qed.
End CountingShapes.

Ltac count_trace :=
  unfold report_trace, proxy_release_trace;
  autorewrite with count;
  rewrite ?count_domain_trace_other by reflexivity;
  rewrite ?count_domain_trace_call by reflexivity;
  rewrite ?count_logged by reflexivity;
  simpl.

(** The acquire is attempted once for an update that passes the filter,
    and not at all for the others. *)
Lemma count_acquire_process_update {W Conn} `{Collaborators W Conn}
    (update : Update) (w : W) :
  count is_acquire (events (process_update update) w)
  = if qualifies update then 1 else 0.
Proof.
  destruct (qualifies update) eqn:Hq.
  - destruct (acquire_error w) as [msg|] eqn:Herr.
    + destruct (process_update_acquire_failed update w Hq) as [e2 ->];
        [congruence|]. now count_trace.
    + destruct (process_update_acquired update w Hq Herr)
        as (rd & ri & e1 & e2 & ->). now count_trace.
  - unfold events. rewrite process_update_skipped by exact Hq. reflexivity.
Qed.

(** *** Loops *)

Section Loops.
Context {W Conn : Type}.
Implicit Types w : W.

Lemma bind_assoc {A B C} (m : M W Conn A) (f : A -> M W Conn B)
    (g : B -> M W Conn C) w :
  bind (bind m f) g w = bind m (fun a => bind (f a) g) w.
Proof.
  unfold bind.
  destruct (m w) as [[a w1] tr1].
  destruct (f a w1) as [[b w2] tr2].
  destruct (g b w2) as [[c w3] tr3].
  rewrite List.app_assoc. reflexivity.
Qed.

Lemma bind_ext {A B} (m : M W Conn A) (k1 k2 : A -> M W Conn B) w :
  (forall a w', k1 a w' = k2 a w') -> bind m k1 w = bind m k2 w.
Proof.
  intros Hk. unfold bind. destruct (m w) as [[a w1] tr1].
  rewrite Hk. reflexivity.
Qed.

Lemma bind_ext_l {A B} (m1 m2 : M W Conn A) (k : A -> M W Conn B) w :
  m1 w = m2 w -> bind m1 k w = bind m2 k w.
Proof. intros Hm. unfold bind. rewrite Hm. reflexivity. Qed.

Lemma bind_ret_l {B} (k : unit -> M W Conn B) w :
  bind (ret tt) k w = k tt w.
Proof.
  unfold bind, ret. destruct (k tt w) as [[b w2] tr2]. reflexivity.
Qed.

(** Ranging over two lists in a row is ranging over their
    concatenation. *)
Lemma for_range_app {A} (l1 l2 : list A) (body : A -> M W Conn unit) w :
  for_range (l1 ++ l2) body w
  = bind (for_range l1 body) (fun _ => for_range l2 body) w.
Proof.
  revert w. induction l1 as [|x l1 IH]; intros w; simpl.
  - rewrite bind_ret_l. reflexivity.
  - rewrite bind_assoc. apply bind_ext. intros _ w'. apply IH.
Qed.

(** The nested loops of lines 83-84 range over all the updates of the
    stream. *)
Lemma for_range_nested (stream : list Snapshot)
    (body : Update -> M W Conn unit) w :
  for_range stream (fun snapshot => for_range (Updates snapshot) body) w
  = for_range (all_updates stream) body w.
Proof.
  revert w. unfold all_updates.
  induction stream as [|s stream IH]; intros w; simpl; [reflexivity|].
  rewrite for_range_app. apply bind_ext. intros _ w'. apply IH.
Qed.
End Loops.

Section Stream.
Context {W Conn : Type} `{Collaborators W Conn}.
Implicit Types w : W.

Lemma for_range_processed (us : list Update) w :
  processed us w (events (for_range us process_update) w)
                 (world_after (for_range us process_update) w).
Proof.
  revert w. induction us as [|u us IH]; intros w; simpl.
  - constructor.
  - rewrite events_bind, world_after_bind. constructor. apply IH.
Qed.

Lemma processed_count_acquire (us : list Update) w tr w' :
  processed us w tr w' ->
  count is_acquire tr = length (List.filter qualifies us).
Proof.
  induction 1 as [|u us w tr w' _ IH]; [reflexivity|].
  rewrite count_app, IH. simpl.
  fold (events (process_update u) w).
  rewrite count_acquire_process_update.
  destruct (qualifies u); reflexivity.
Qed.
End Stream.
End SystemaGcFacts.

Module SystemaGcProperties.
Import SystemaGc SystemaGcFacts Fixture.
Local Open Scope list_scope.
Local Open Scope nat_scope.

Section OneUpdate.
Context {W Conn : Type} `{Collaborators W Conn}.
Implicit Types (w : W) (update : Update).




(** C4: an update that is not a deletion, or whose intercept has no API
    key, leaves no trace: no acquire, no external call, no release, and
    the world is left as it was. *)
Theorem other_updates_are_ignored update w :
  Delete update = false \/ ApiKey (Value update) = "" ->
  events (process_update update) w = []
  /\ world_after (process_update update) w = w
  /\ count is_acquire (events (process_update update) w) = 0
  /\ count is_external_call (events (process_update update) w) = 0
  /\ count is_release (events (process_update update) w) = 0.
Proof.
  intros Hu.
  assert (Hq : qualifies update = false).
  { unfold qualifies. destruct Hu as [-> | ->]; [reflexivity|].
    apply andb_false_r. }
  unfold events, world_after.
  rewrite process_update_skipped by exact Hq. repeat split.
Qed.


End OneUpdate.





Lemma other_updates_are_ignored_witness :
  events (process_update i2) healthy = []
  /\ events (process_update i4) healthy = [].
Proof.
  split.
  - apply (other_updates_are_ignored i2 healthy). right. reflexivity.
  - apply (other_updates_are_ignored i4 healthy). left. reflexivity.
Defined.




Section Stream.
Context {W Conn : Type} `{Collaborators W Conn}.

(** C10: the task handles all the updates of all the snapshots, one
    after the other in the order of delivery, and returns [nil] when
    the stream is closed.  Whatever the collaborators return, every
    qualifying update of the stream gets its acquire. *)
Theorem systema_gc_handles_every_update (stream : list Snapshot) (w : W) :
  result (systema_gc stream) w = None
  /\ processed (all_updates stream) w
       (events (systema_gc stream) w) (world_after (systema_gc stream) w)
  /\ count is_acquire (events (systema_gc stream) w)
     = length (List.filter qualifies (all_updates stream)).
Proof.
  assert (Hrun : systema_gc stream w
                 = bind (for_range (all_updates stream) process_update)
                        (fun _ => ret None) w).
  { unfold systema_gc. apply bind_ext_l, for_range_nested. }
  assert (Hp : processed (all_updates stream) w
                 (events (systema_gc stream) w)
                 (world_after (systema_gc stream) w)).
  { unfold events, world_after. rewrite Hrun, run_bind. simpl.
    rewrite List.app_nil_r. apply for_range_processed. }
  split; [|split].
  - unfold result. rewrite Hrun, run_bind. reflexivity.
  - exact Hp.
  - exact (processed_count_acquire _ _ _ _ Hp).
Qed.
End Stream.
End SystemaGcProperties.

(** ** The [intercept-gc] task *)

Module InterceptGcProperties.
Import InterceptGc.
Local Open Scope list_scope.
Local Open Scope nat_scope.

Section Task.
Context {W : Type} (expire : W -> W).

(** [n] ticks make [n] calls to [mgr.expire], and the loop goes on. *)
Lemma loop_ticks (n : nat) (later : list select_case) (w : W) :
  loop expire (repeat TickerC n ++ later) w
  = (fst (fst (loop expire later (Nat.iter n expire w))),
     snd (fst (loop expire later (Nat.iter n expire w))),
     repeat Expire n ++ snd (loop expire later (Nat.iter n expire w))).
Proof.
  revert w. induction n as [|n IH]; intros w.
  - simpl. destruct (loop expire later w) as [[r w'] tr]. reflexivity.
  - change (repeat TickerC (S n) ++ later)
      with (TickerC :: (repeat TickerC n ++ later)).
    cbn [loop]. rewrite IH, <- Nat.iter_succ_r. reflexivity.
Qed.

(** C9: the ticker is created with a period of 5 seconds; every tick
    received makes one call to [mgr.expire], which returns nothing;
    when the cancellation of the context is received the task returns
    [nil], and its ticker is stopped.  Until then it keeps running. *)
Theorem intercept_gc_ticks_until_cancelled
    (n : nat) (later : list select_case) (w : W) :
  intercept_gc expire (repeat TickerC n ++ CtxDone :: later) w
  = (Some None, Nat.iter n expire w,
     NewTicker (5 * Second) :: repeat Expire n ++ [TickerStop])
  /\ intercept_gc expire (repeat TickerC n) w
     = (None, Nat.iter n expire w, NewTicker (5 * Second) :: repeat Expire n).
Proof.
  unfold intercept_gc. split.
  - rewrite loop_ticks. simpl. rewrite List.app_nil_r. reflexivity.
  - rewrite <- (List.app_nil_r (repeat TickerC n)), loop_ticks. simpl.
    rewrite !List.app_nil_r. reflexivity.
Qed.
End Task.
End InterceptGcProperties.


(** ** The [systema-gc] task over a whole stream *)

Module SystemaGcStreamFacts.
Import SystemaGc SystemaGcFacts SystemaGcProtocol.
Local Open Scope list_scope.
Local Open Scope nat_scope.

Section Stream.
Context {W Conn : Type} `{Collaborators W Conn}.
Implicit Types (w : W) (update : Update) (stream : list Snapshot).

(** A computation that emits nothing and leaves the world alone can be
    skipped. *)
Lemma bind_skip {A B} (m : M W Conn A) (k : A -> M W Conn B) a w :
  m w = (a, w, []) -> bind m k w = k a w.
Proof.
  intros Hm. unfold bind. rewrite Hm.
  destruct (k a w) as [[b w2] tr2]. reflexivity.
Qed.

Lemma systema_gc_flat stream w :
  systema_gc stream w
  = bind (for_range (all_updates stream) process_update) (fun _ => ret None) w.
Proof. unfold systema_gc. apply bind_ext_l, for_range_nested. Qed.

Lemma events_systema_gc stream w :
  events (systema_gc stream) w
  = events (for_range (all_updates stream) process_update) w.
Proof.
  unfold events at 1. rewrite systema_gc_flat, run_bind. simpl.
  apply List.app_nil_r.
Qed.

Lemma world_after_systema_gc stream w :
  world_after (systema_gc stream) w
  = world_after (for_range (all_updates stream) process_update) w.
Proof.
  unfold world_after at 1. rewrite systema_gc_flat, run_bind. reflexivity.
Qed.

Lemma result_systema_gc stream w : result (systema_gc stream) w = None.
Proof. unfold result. rewrite systema_gc_flat, run_bind. reflexivity. Qed.

(** The three shapes of the events of one update. *)
Lemma process_update_cases update w :
  (qualifies update = false /\ events (process_update update) w = [])
  \/ (qualifies update = true /\
      exists sa m e2,
        events (process_update update) w
        = EvGet sa (Some m)
            :: Errorln "systema: acquire connection:" (Some m)
            :: proxy_release_trace e2)
  \/ (qualifies update = true /\
      exists sa rd ri e1 e2,
        events (process_update update) w
        = EvGet sa None
            :: domain_trace sa update rd
            ++ report_trace sa update ri e1
            ++ proxy_release_trace e2).
Proof.
  destruct (qualifies update) eqn:Hq.
  - right. destruct (acquire_error w) as [m|] eqn:Herr.
    + left. split; [reflexivity|].
      destruct (process_update_acquire_failed update w Hq) as [e2 He];
        [congruence|].
      rewrite Herr in He. eauto.
    + right. split; [reflexivity|].
      destruct (process_update_acquired update w Hq Herr)
        as (rd & ri & e1 & e2 & He). eauto 6.
  - left. split; [reflexivity|].
    unfold events. rewrite process_update_skipped by exact Hq. reflexivity.
Qed.

(** A property of traces that holds of the events of each update, and
    of the concatenation of two traces that have it, holds of the events
    of the whole task. *)
Lemma stream_events_ind (P : list (event Conn) -> Prop) :
  P [] ->
  (forall update w, P (events (process_update update) w)) ->
  (forall tr1 tr2, P tr1 -> P tr2 -> P (tr1 ++ tr2)) ->
  forall stream w, P (events (systema_gc stream) w).
Proof.
  intros Hnil Hone Happ stream w.
  rewrite events_systema_gc.
  pose proof (for_range_processed (all_updates stream) w) as Hp.
  induction Hp as [|u us w0 tr w' _ IH]; [exact Hnil|].
  apply Happ; [apply Hone | exact IH].
Qed.
End Stream.
End SystemaGcStreamFacts.

Module SystemaGcStream.
Import SystemaGc SystemaGcFacts SystemaGcProtocol SystemaGcStreamFacts Fixture.
Local Open Scope list_scope.
Local Open Scope nat_scope.

Ltac update_cases update w Hq :=
  destruct (process_update_cases update w)
    as [[Hq ->] | [[Hq (?sa & ?m & ?e2 & ->)]
                  | [Hq (?sa & ?rd & ?ri & ?e1 & ?e2 & ->)]]].

Lemma all_updates_app (s1 s2 : list Snapshot) :
  all_updates (s1 ++ s2) = all_updates s1 ++ all_updates s2.
Proof. unfold all_updates. rewrite List.map_app, List.concat_app. reflexivity. Qed.

Lemma all_updates_qualifying_only (stream : list Snapshot) :
  all_updates (map qualifying_only stream)
  = List.filter qualifies (all_updates stream).
Proof.
  unfold all_updates.
  induction stream as [|s stream IH]; [reflexivity|].
  simpl. rewrite List.filter_app, IH. reflexivity.
Qed.

Section Stream.
Context {W Conn : Type} `{Collaborators W Conn}.
Implicit Types (w : W) (stream : list Snapshot).

Lemma for_range_filter (us : list Update) w :
  for_range (List.filter qualifies us) process_update w
  = for_range us process_update w.
Proof.
  revert w. induction us as [|u us IH]; intros w; [reflexivity|].
  simpl. destruct (qualifies u) eqn:Hq.
  - simpl. apply bind_ext. intros _ w'. apply IH.
  - rewrite (bind_skip _ _ tt) by (apply process_update_skipped, Hq).
    apply IH.
Qed.

(** X1: handling a stream that is the concatenation of two streams is
    handling the first and then, from the world this leaves, the second. *)
Theorem systema_gc_app (s1 s2 : list Snapshot) w :
  events (systema_gc (s1 ++ s2)) w
  = events (systema_gc s1) w
      ++ events (systema_gc s2) (world_after (systema_gc s1) w)
  /\ world_after (systema_gc (s1 ++ s2)) w
     = world_after (systema_gc s2) (world_after (systema_gc s1) w)
  /\ result (systema_gc (s1 ++ s2)) w = None.
Proof.
  rewrite !events_systema_gc, !world_after_systema_gc, result_systema_gc.
  rewrite all_updates_app.
  split; [|split].
  - unfold events at 1. rewrite for_range_app, run_bind. reflexivity.
  - unfold world_after at 1. rewrite for_range_app, run_bind. reflexivity.
  - reflexivity.
Qed.

(** X2: how the updates are grouped into snapshots makes no difference:
    the task does the same on the stream and on the single snapshot that
    holds all its updates in order. *)
Theorem snapshot_boundaries_are_irrelevant stream w :
  systema_gc stream w = systema_gc [{| Updates := all_updates stream |}] w.
Proof.
  rewrite !systema_gc_flat. unfold all_updates at 2. simpl.
  rewrite List.app_nil_r. reflexivity.
Qed.

(** X3: the updates that fail the filter of line 88 can be taken out of
    the stream without any change to what the task does. *)
Theorem non_qualifying_updates_are_invisible stream w :
  systema_gc (map qualifying_only stream) w = systema_gc stream w.
Proof.
  rewrite !systema_gc_flat, all_updates_qualifying_only.
  apply bind_ext_l, for_range_filter.
Qed.


(** X5: the error lines of the log are, in order, exactly one line for
    each call that returned an error, with the message of its call site
    and the error itself. *)
Theorem every_failure_is_logged_once stream w :
  List.filter is_error_line (events (systema_gc stream) w)
  = flat_map error_line_of (events (systema_gc stream) w).
Proof.
  revert stream w.
  apply (stream_events_ind
           (fun tr => List.filter is_error_line tr = flat_map error_line_of tr)).
  - reflexivity.
  - intros update w. update_cases update w Hq.
    + reflexivity.
    + destruct e2; reflexivity.
    + unfold domain_trace, report_trace, proxy_release_trace.
      destruct (negb _), rd, ri, e1, e2; reflexivity.
  - intros tr1 tr2 H1 H2.
    rewrite List.filter_app, List.flat_map_app, H1, H2. reflexivity.
Qed.

(** X6: an external call is only ever made for an update that passes the
    filter of line 88, and [reapDomain] only for one that has a preview
    domain. *)
Theorem external_calls_are_justified stream w :
  forallb justified (events (systema_gc stream) w) = true.
Proof.
  revert stream w.
  apply (stream_events_ind (fun tr => forallb justified tr = true)).
  - reflexivity.
  - intros update w. update_cases update w Hq.
    + reflexivity.
    + destruct e2; reflexivity.
    + unfold domain_trace, report_trace, proxy_release_trace.
      destruct (negb (String.eqb _ _)) eqn:Hd, rd, ri, e1, e2;
        simpl; rewrite ?Hq, ?Hd; reflexivity.
  - intros tr1 tr2 H1 H2. rewrite List.forallb_app, H1, H2. reflexivity.
Qed.


(** X13: a stream in which no update passes the filter of line 88 is
    consumed without a single call or log line, and the world is left as
    it was. *)
Theorem quiet_stream_leaves_no_trace stream w :
  forallb (fun update => negb (qualifies update)) (all_updates stream) = true ->
  systema_gc stream w = (None, w, []).
Proof.
  intros Hquiet.
  assert (Hnone : List.filter qualifies (all_updates stream) = []).
  { induction (all_updates stream) as [|u us IH]; [reflexivity|].
    simpl in Hquiet. apply andb_prop in Hquiet as [Hu Hus].
    simpl. destruct (qualifies u); [discriminate Hu | exact (IH Hus)]. }
  rewrite systema_gc_flat.
  rewrite (bind_ext_l _ (for_range (List.filter qualifies (all_updates stream))
                           process_update))
    by (symmetry; apply for_range_filter).
  rewrite Hnone. reflexivity.
Qed.
End Stream.

Lemma quiet_stream_leaves_no_trace_witness :
  systema_gc [{| Updates := [i2; i4] |}; {| Updates := [] |}; {| Updates := [i4] |}]
    unreachable
  = (None, unreachable, []).
Proof.
  apply (quiet_stream_leaves_no_trace
           [{| Updates := [i2; i4] |}; {| Updates := [] |}; {| Updates := [i4] |}]
           unreachable).
  reflexivity.
Defined.
End SystemaGcStream.

Module SystemaGcDiscipline.
Import SystemaGc SystemaGcFacts SystemaGcProtocol SystemaGcStreamFacts.
Local Open Scope list_scope.

Section Discipline.
Context {W Conn : Type} `{Collaborators W Conn} `{EqDecision Conn}.
Implicit Types (p : phase Conn) (tr : list (event Conn)) (sa : Conn).







End Discipline.

(** The discipline does reject traces: a call without a connection, a
    second acquire while one is held, a call on another connection, a
    domain removed after the intercept was reported, a missing release. *)
Example discipline_rejects_unheld_call :
  run (Conn:=nat) Idle [EvReapIntercept 1%nat Fixture.i1 None] = None.
Proof. reflexivity. Qed.

Example discipline_rejects_nested_acquire :
  run (Conn:=nat) Idle [EvGet 1%nat None; EvGet 1%nat None] = None.
Proof. reflexivity. Qed.

Example discipline_rejects_other_connection :
  run (Conn:=nat) Idle [EvGet 1%nat None; EvReapIntercept 2%nat Fixture.i1 None] = None.
Proof. reflexivity. Qed.

Example discipline_rejects_late_domain_removal :
  run (Conn:=nat) Idle
    [EvGet 1%nat None; EvReapIntercept 1%nat Fixture.i1 None;
     EvReapDomain 1%nat Fixture.i1 None] = None.
Proof. reflexivity. Qed.

Example discipline_sees_missing_release :
  run (Conn:=nat) Idle
    [EvGet 1%nat None; EvReapIntercept 1%nat Fixture.i1 None;
     EvDone ManagementConnection None] = Some Releasing.
Proof. reflexivity. Qed.
End SystemaGcDiscipline.

(** ** More on the multiplexer *)

Module HttpReading.
Import Http HttpFacts Reading.

(** [Header.Get] on the three shapes a header map can have at a key. *)
Lemma Header_Get_cases (h : gmap string (list string)) (key : string) :
  (Header_Get h key = "" /\ (h !! key = None \/ h !! key = Some []))
  \/ exists v vs, h !! key = Some (v :: vs) /\ Header_Get h key = v.
Proof.
  unfold Header_Get. destruct (h !! key) as [[|v vs]|]; eauto.
Qed.

(** X9: routing reads the first value stored under [Content-Type] and
    nothing else of the header: a request goes to the gRPC handler exactly
    when it is HTTP/2 and that first value starts with
    ["application/grpc"].  A request without a [Content-Type], or with an
    empty list of values, never does. *)
Theorem dispatch_reads_first_content_type (r : Request) :
  dispatch r = GrpcHandler <->
  ProtoMajor r = 2
  /\ exists v vs rest,
       Header r !! "Content-Type" = Some (v :: vs)
       /\ v = ("application/grpc" ++ rest)%string.
Proof.
  rewrite dispatch_grpc_iff, is_grpc_iff.
  split; intros [Hmajor Hct]; (split; [exact Hmajor|]).
  - destruct (Header_Get_cases (Header r) "Content-Type")
      as [[Hempty _] | (v & vs & Hlook & Hget)].
    + rewrite Hempty in Hct. discriminate Hct.
    + rewrite Hget in Hct. apply HasPrefix_spec in Hct as [rest ->].
      eauto.
  - destruct Hct as (v & vs & rest & Hlook & ->).
    unfold Header_Get. rewrite Hlook. apply HasPrefix_app.
Qed.

(** X10: no header other than [Content-Type] has a say in the routing. *)
Theorem other_headers_do_not_route
    (key : string) (values : list string) (r : Request) :
  key <> "Content-Type" ->
  dispatch (set_header key values r) = dispatch r.
Proof.
  intros Hkey. unfold dispatch, is_grpc, set_header, Header_Get. simpl.
  rewrite lookup_insert_ne by exact Hkey. reflexivity.
Qed.

Lemma other_headers_do_not_route_witness :
  dispatch (set_header "Accept" ["application/grpc"]
              (Fixture.request 2 ["text/plain"] "/"))
  = dispatch (Fixture.request 2 ["text/plain"] "/").
Proof.
  apply (other_headers_do_not_route "Accept" ["application/grpc"]
           (Fixture.request 2 ["text/plain"] "/")).
  discriminate.
Defined.

Lemma append_not_empty (a : string) (c : ascii) :
  (a ++ String c "")%string <> "".
Proof. destruct a; discriminate. Qed.

Lemma append_char_inj (c : ascii) :
  forall a b : string,
    (a ++ String c "")%string = (b ++ String c "")%string -> a = b.
Proof.
  induction a as [|x a IH]; intros [|y b] Heq.
  - reflexivity.
  - change (String c "" = String y (b ++ String c ""))%string in Heq.
    injection Heq as _ Heq. symmetry in Heq.
    now apply append_not_empty in Heq.
  - change (String x (a ++ String c "") = String c "")%string in Heq.
    injection Heq as _ Heq. now apply append_not_empty in Heq.
  - change (String x (a ++ String c "") = String y (b ++ String c ""))%string in Heq.
    injection Heq as -> Heq. f_equal. apply IH, Heq.
Qed.

(** X11: the plain handler writes after what the response already holds,
    and what it writes tells the paths apart: from the same response, two
    requests get the same body exactly when they ask for the same path. *)
Theorem httpHandler_keeps_body_and_tells_paths_apart
    (w : ResponseWriter) (r1 r2 : Request) :
  HasPrefix (body (httpHandler w r1)) (body w) = true
  /\ (body (httpHandler w r1) = body (httpHandler w r2)
      <-> Path (Url r1) = Path (Url r2)).
Proof.
  split.
  - apply HasPrefix_app.
  - unfold httpHandler, Fprintf_hello. simpl. split.
    + intros Heq.
      apply (inj (String.append (body w))) in Heq.
      apply (inj (String.append "Hello World from: ")) in Heq.
      exact (append_char_inj _ _ _ Heq).
    + intros ->. reflexivity.
Qed.
End HttpReading.

(** ** More on the [intercept-gc] task *)

Module InterceptGcSchedules.
Import InterceptGc Reading.
Local Open Scope list_scope.
Local Open Scope nat_scope.

Section Task.
Context {W : Type} (expire : W -> W).

(** Whatever fires, the loop calls [mgr.expire] some [n] times, [n] no
    more than the number of ticks, and does nothing else. *)
Lemma loop_any (fired : list select_case) :
  forall w, exists n,
    n <= length (List.filter is_tick fired)
    /\ loop expire fired w
       = (if existsb is_done fired then Some None else None,
          Nat.iter n expire w, repeat Expire n).
Proof.
  induction fired as [|[|] fired IH]; intros w.
  - exists 0. split; [simpl; lia | reflexivity].
  - destruct (IH (expire w)) as (n & Hn & Hrun).
    exists (S n). split; [simpl; lia|].
    cbn [loop]. rewrite Hrun, <- Nat.iter_succ_r. reflexivity.
  - exists 0. split; [simpl; lia | reflexivity].
Qed.

Lemma existsb_is_stop_repeat n : existsb is_stop (repeat Expire n) = false.
Proof. induction n; [reflexivity | exact IHn]. Qed.

Lemma filter_is_expire_repeat n :
  List.filter is_expire (repeat Expire n) = repeat Expire n.
Proof. induction n as [|n IH]; [reflexivity | simpl; now rewrite IH]. Qed.

(** X12: whatever fires and in whatever order, the task returns exactly
    when [ctx.Done] has fired, and then with a [nil] error; its ticker is
    stopped exactly when it returns; it never calls [mgr.expire] more
    often than the ticker has ticked; and the state it leaves is the one
    these calls made. *)
Theorem intercept_gc_any_schedule (fired : list select_case) (w : W) :
  fst (fst (intercept_gc expire fired w))
  = (if existsb is_done fired then Some None else None)
  /\ existsb is_stop (snd (intercept_gc expire fired w)) = existsb is_done fired
  /\ length (List.filter is_expire (snd (intercept_gc expire fired w)))
     <= length (List.filter is_tick fired)
  /\ snd (fst (intercept_gc expire fired w))
     = Nat.iter (length (List.filter is_expire (snd (intercept_gc expire fired w))))
         expire w.
Proof.
  unfold intercept_gc.
  destruct (loop_any fired w) as (n & Hn & ->).
  cbn [fst snd existsb List.filter is_stop is_expire orb].
  rewrite List.existsb_app, existsb_is_stop_repeat.
  rewrite List.filter_app, filter_is_expire_repeat, List.length_app, List.repeat_length.
  destruct (existsb is_done fired); simpl; rewrite Nat.add_0_r; repeat split; exact Hn.
Qed.
End Task.
End InterceptGcSchedules.
